(* Shallow embedding of src/js/script.js (NASA APOD gallery page):
   the fact picker, the modal controller and the gallery loader, as
   state-passing functions over an explicit model of the page. *)

From Stdlib Require Import String Ascii List Bool Arith Lia ZArith QArith Qround.
Import ListNotations.
Open Scope nat_scope.
Open Scope string_scope.
Open Scope list_scope.

(* ------------------------------------------------------------------ *)
(** * JavaScript values used by the script *)

(** [a || d] on a string-valued property that may be absent: an absent
    property ([undefined]) and the empty string are both falsy. *)
Definition or_else (o : option string) (d : string) : string :=
  match o with
  | Some s => if String.eqb s "" then d else s
  | None => d
  end.

(** Decimal rendering of an HTTP status, as done by the template literal
    [`(${response.status})`]. *)
Fixpoint dec_aux (fuel n : nat) (acc : string) : string :=
  match fuel with
  | 0 => acc
  | S f =>
      let acc' := String (ascii_of_nat (48 + n mod 10)) acc in
      if Nat.ltb n 10 then acc' else dec_aux f (n / 10) acc'
  end.

Definition nat_to_dec (n : nat) : string := dec_aux (S n) n "".

(** A Picture Record: one element of the fetched JSON array.  Every
    property is optional; values are taken to be strings. *)
Record PictureRecord := mkRecord {
  media_type : option string;
  url : option string;
  hdurl : option string;
  thumbnail_url : option string;
  title : option string;
  date : option string;
  explanation : option string
}.

Definition empty_record : PictureRecord :=
  mkRecord None None None None None None None.

(** An element of the parsed array: [null], or an object read as a
    Picture Record (any other non-null JSON value reads every property as
    [undefined], i.e. behaves as [empty_record]). *)
Inductive Elem :=
  | ENull
  | ERec (r : PictureRecord).

(** The value produced by [response.json()]: an array, or any other JSON
    value (for which [Array.isArray] is false). *)
Inductive Parsed :=
  | PArray (l : list Elem)
  | PNotArray.

(** The body of a response: parsed JSON, or a parse failure raised by
    [response.json()] with its message. *)
Inductive Body :=
  | BodyParsed (v : Parsed)
  | BodyInvalid (msg : string).

(** The outcome of [await fetch(apodData)]: a rejection (network failure)
    with its error message, or a response with a status and a body. *)
Inductive FetchResult :=
  | Rejected (msg : string)
  | Responded (status : nat) (body : Body).

(** [response.ok]: status in the range 200-299. *)
Definition response_ok (status : nat) : bool :=
  Nat.leb 200 status && Nat.leb status 299.

(* ------------------------------------------------------------------ *)
(** * The page *)

(** [#modal-image]. *)
Record Img := mkImg {
  img_src : string;
  img_alt : string;
  img_display : string;        (* style.display *)
  img_has_parent : bool        (* modalImage.parentNode non-null *)
}.

(** An [iframe#modal-video] created by [openModal]. *)
Record Iframe := mkIframe {
  if_src : string;
  if_next_to_image : bool      (* inserted after the image, else appended to the modal *)
}.

(** The modal region: [#modal] and its collaborators; [None] or [false]
    stands for an element that [getElementById]/[querySelector] did not find. *)
Record ModalDom := mkModal {
  m_present : bool;                 (* #modal *)
  m_image : option Img;             (* #modal-image *)
  m_title : option string;          (* #modal-title textContent *)
  m_date : option string;           (* #modal-date textContent *)
  m_expl : option string;           (* #modal-explanation textContent *)
  m_aria : option string;           (* #modal aria-hidden attribute *)
  m_videos : list Iframe;           (* elements with id modal-video, document order *)
  m_close_btn : bool;               (* .modal-close *)
  m_focus_close : bool              (* the close button has keyboard focus *)
}.

(** A gallery tile ([div.gallery-item]); [t_item] is the record captured
    by its click handler. *)
Record Tile := mkTile {
  t_play : bool;                    (* span.play-overlay child present *)
  t_img_src : string;
  t_img_alt : string;
  t_title : string;
  t_date : string;
  t_item : PictureRecord
}.

(** Children of [#gallery]. *)
Inductive GNode :=
  | NLoading                        (* <p class="loading"> placeholder *)
  | NNoImages                       (* <p>No images found.</p> *)
  | NError (msg : string)           (* <p class="error"> text *)
  | NTile (t : Tile).

(** [section#did-you-know]; [fs_id] is the node's identity. *)
Record FactSection := mkFact {
  fs_id : nat;
  fs_has_p : bool;
  fs_text : option string;          (* textContent of its p *)
  fs_before_gallery : bool
}.

Record Page := mkPage {
  gallery : option (list GNode);    (* #gallery and its children *)
  gallery_attached : bool;          (* gallery.parentNode non-null *)
  modal : ModalDom;
  body_overflow : string;           (* document.body.style.overflow *)
  fact : option FactSection;
  next_node : nat;                  (* identity of the next created node *)
  struct_mutations : nat;           (* insertions into the page structure *)
  console : list string             (* console.error output *)
}.

Definition set_gallery (g : option (list GNode)) (p : Page) : Page :=
  mkPage g (gallery_attached p) (modal p) (body_overflow p) (fact p)
    (next_node p) (struct_mutations p) (console p).

Definition set_modal (m : ModalDom) (ov : string) (p : Page) : Page :=
  mkPage (gallery p) (gallery_attached p) m ov (fact p)
    (next_node p) (struct_mutations p) (console p).

Definition set_fact (f : option FactSection) (nn sm : nat) (p : Page) : Page :=
  mkPage (gallery p) (gallery_attached p) (modal p) (body_overflow p) f
    nn sm (console p).

Definition set_console (c : list string) (p : Page) : Page :=
  mkPage (gallery p) (gallery_attached p) (modal p) (body_overflow p) (fact p)
    (next_node p) (struct_mutations p) c.

(* ------------------------------------------------------------------ *)
(** * Fact Picker ([showRandomFact]) *)

Definition spaceFacts : list string := [
  "Venus spins backward compared to most planets — the Sun rises in the west there.";
  "A day on Venus (one rotation) is longer than a year on Venus (one orbit).";
  "Neutron stars are so dense that a teaspoon of their material would weigh about a billion tons on Earth.";
  "Jupiter's Great Red Spot is a gigantic storm larger than Earth that has raged for centuries.";
  "There are more stars in the observable universe than grains of sand on all Earth's beaches combined.";
  "Saturn could float in water because its average density is less than water.";
  "The largest volcano in the solar system is Olympus Mons on Mars — it's about three times taller than Mount Everest.";
  "Light from the Sun takes about 8 minutes and 20 seconds to reach Earth.";
  "A year on Mercury only lasts 88 Earth days.";
  "The Moon is slowly moving away from Earth at about 3.8 centimeters per year."
].

(** [Math.floor(Math.random() * n)], the draw [r] of [Math.random()] taken
    as an exact rational in [0,1) and the product computed exactly. *)
Definition pick_index (r : Q) (n : nat) : nat :=
  Z.to_nat (Qfloor (r * inject_Z (Z.of_nat n))).

(** [spaceFacts[idx] || 'Space is full of surprises!']. *)
Definition fact_text (facts : list string) (r : Q) : string :=
  or_else (nth_error facts (pick_index r (length facts)))
    "Space is full of surprises!".

(** [showRandomFact] over the fact list [facts], with draw [r]. *)
Definition showRandomFact (facts : list string) (r : Q) (p : Page) : Page :=
  (* find or create section#did-you-know (created with its h2 and p) *)
  let '(sec, nn, sm) :=
    match fact p with
    | Some s => (s, next_node p, struct_mutations p)
    | None =>
        (mkFact (next_node p) true None
           (match gallery p with Some _ => gallery_attached p | None => false end),
         S (next_node p), S (struct_mutations p))
    end in
  (* factSection.querySelector('p') || factSection.appendChild(...) *)
  let '(sec, sm) :=
    if fs_has_p sec then (sec, sm)
    else (mkFact (fs_id sec) true (fs_text sec) (fs_before_gallery sec), S sm) in
  let sec := mkFact (fs_id sec) (fs_has_p sec) (Some (fact_text facts r))
               (fs_before_gallery sec) in
  set_fact (Some sec) nn sm p.

(** The script runs the picker once per load; a list of draws models
    repeated runs on the same page. *)
Definition run_facts (facts : list string) (rs : list Q) (p : Page) : Page :=
  fold_left (fun p r => showRandomFact facts r p) rs p.

(* ------------------------------------------------------------------ *)
(** * Modal Controller ([openModal], [closeModal], Escape handler) *)

Definition is_video (it : PictureRecord) : bool :=
  match media_type it with
  | Some s => String.eqb s "video"
  | None => false
  end.

(** [document.getElementById('modal-video')?.remove()]: removes the first
    element with that id. *)
Definition remove_previous (vs : list Iframe) : list Iframe := tl vs.

(** [openModal(item)]; [None] is a falsy [item]. *)
Definition openModal (item : option PictureRecord) (p : Page) : Page :=
  match item with
  | None => p
  | Some it =>
      let m := modal p in
      if negb (m_present m) then p else
      let vs := remove_previous (m_videos m) in
      let '(img, vs) :=
        if is_video it then
          let img := match m_image m with
                     | Some i => Some (mkImg (img_src i) (img_alt i) "none" (img_has_parent i))
                     | None => None
                     end in
          let ifr := mkIframe (or_else (url it) (or_else (thumbnail_url it) ""))
                       (match m_image m with Some i => img_has_parent i | None => false end) in
          (img, vs ++ [ifr])
        else
          let img := match m_image m with
                     | Some i => Some (mkImg (or_else (hdurl it) (or_else (url it) ""))
                                         (or_else (title it) "Space image") ""
                                         (img_has_parent i))
                     | None => None
                     end in
          (img, vs) in
      let t := match m_title m with Some _ => Some (or_else (title it) "Untitled") | None => None end in
      let d := match m_date m with Some _ => Some (or_else (date it) "") | None => None end in
      let e := match m_expl m with Some _ => Some (or_else (explanation it) "") | None => None end in
      set_modal
        (mkModal true img t d e (Some "false") vs (m_close_btn m)
           (m_close_btn m || m_focus_close m))
        "hidden" p
  end.

(** [closeModal()]. *)
Definition closeModal (p : Page) : Page :=
  let m := modal p in
  if negb (m_present m) then p else
  let vs := remove_previous (m_videos m) in
  let img := match m_image m with
             | Some i => Some (mkImg "" (img_alt i) "" (img_has_parent i))
             | None => None
             end in
  set_modal
    (mkModal true img (m_title m) (m_date m) (m_expl m) (Some "true") vs
       (m_close_btn m) (m_focus_close m))
    "" p.

(** The window [keydown] listener. *)
Definition on_keydown (key : string) (p : Page) : Page :=
  let m := modal p in
  if negb (m_present m) then p else
  if String.eqb key "Escape" &&
     match m_aria m with Some a => String.eqb a "false" | None => false end
  then closeModal p else p.

(** The overlay [click] listener: [e.target.dataset.close] truthy. *)
Definition on_overlay_click (target_close : option string) (p : Page) : Page :=
  match target_close with
  | Some c => if String.eqb c "" then p else closeModal p
  | None => p
  end.

(* ------------------------------------------------------------------ *)
(** * Gallery Loader (the [getImageBtn] click handler) *)

(** The body of the handler's [try] block runs over the gallery's
    children and may throw an [Error] with a message: a small
    state-and-exception monad. *)
Definition GalleryM (A : Type) : Type :=
  list GNode -> (string + A) * list GNode.

Definition gret {A} (a : A) : GalleryM A := fun g => (inr a, g).

Definition gbind {A B} (m : GalleryM A) (k : A -> GalleryM B) : GalleryM B :=
  fun g => match m g with
           | (inl e, g') => (inl e, g')
           | (inr a, g') => k a g'
           end.

Definition gthrow {A} (msg : string) : GalleryM A := fun g => (inl msg, g).

(** [gallery.innerHTML = ...]. *)
Definition gset (children : list GNode) : GalleryM unit := fun _ => (inr tt, children).

(** [gallery.appendChild(...)]. *)
Definition gappend (n : GNode) : GalleryM unit := fun g => (inr tt, g ++ [n]).

Notation "x <- m ;; k" := (gbind m (fun x => k))
  (at level 61, m at next level, right associativity).
Notation "m ;; k" := (gbind m (fun _ => k))
  (at level 61, right associativity).

(** The tile built for one record inside [data.forEach]. *)
Definition build_tile (it : PictureRecord) : Tile :=
  let isVideo := is_video it in
  let imgSrc := if isVideo then or_else (thumbnail_url it) (or_else (url it) "")
                else or_else (url it) "" in
  mkTile isVideo imgSrc (or_else (title it) "Space image")
    (or_else (title it) "Untitled") (or_else (date it) "") it.

(** One iteration of [data.forEach]: reading [item.media_type] on [null]
    throws a [TypeError]. *)
Definition render_item (e : Elem) : GalleryM unit :=
  match e with
  | ENull => gthrow "Cannot read properties of null (reading 'media_type')"
  | ERec it => gappend (NTile (build_tile it))
  end.

Fixpoint for_each (l : list Elem) : GalleryM unit :=
  match l with
  | [] => gret tt
  | e :: l' => render_item e ;; for_each l'
  end.

(** The [try] block, once [fetch] has settled with [r]. *)
Definition try_body (r : FetchResult) : GalleryM unit :=
  match r with
  | Rejected msg => gthrow msg
  | Responded status body =>
      if negb (response_ok status) then
        gthrow ("Network response was not ok (" ++ nat_to_dec status ++ ")")%string
      else
        match body with
        | BodyInvalid msg => gthrow msg
        | BodyParsed PNotArray => gset [NNoImages]
        | BodyParsed (PArray []) => gset [NNoImages]
        | BodyParsed (PArray data) => gset [] ;; for_each data
        end
  end.

(** First half of the handler, up to [await fetch]: the loading
    placeholder. *)
Definition load_start (p : Page) : Page :=
  match gallery p with
  | None => p
  | Some _ => set_gallery (Some [NLoading]) p
  end.

(** Second half of the handler, when [fetch] settles with [r]: the [try]
    block and its [catch]. *)
Definition load_finish (r : FetchResult) (p : Page) : Page :=
  match gallery p with
  | None => p
  | Some g =>
      match try_body r g with
      | (inr _, g') => set_gallery (Some g') p
      | (inl msg, _) =>
          set_console (console p ++ ["Failed to load APOD data: " ++ msg]%string)
            (set_gallery (Some [NError ("Error loading images: " ++ msg)%string]) p)
      end
  end.

(** One click with no other event while the fetch is pending. *)
Definition load_gallery (r : FetchResult) (p : Page) : Page :=
  load_finish r (load_start p).

(* ------------------------------------------------------------------ *)
(** * Page events *)

Inductive Event :=
  | EvOpen (item : option PictureRecord)       (* tile click, or any openModal call *)
  | EvClose                                    (* close button *)
  | EvOverlayClick (target_close : option string)
  | EvKey (key : string)
  | EvLoadStart                                (* getImageBtn click *)
  | EvLoadFinish (r : FetchResult)             (* a pending fetch settles *)
  | EvFact (r : Q).                            (* showRandomFact *)

Definition step (ev : Event) (p : Page) : Page :=
  match ev with
  | EvOpen it => openModal it p
  | EvClose => closeModal p
  | EvOverlayClick c => on_overlay_click c p
  | EvKey k => on_keydown k p
  | EvLoadStart => load_start p
  | EvLoadFinish r => load_finish r p
  | EvFact r => showRandomFact spaceFacts r p
  end.

Definition run_events (evs : list Event) (p : Page) : Page :=
  fold_left (fun p ev => step ev p) evs p.

(* ------------------------------------------------------------------ *)
(** * Sample pages *)

(** The modal region of index.html before any interaction. *)
Definition initial_modal : ModalDom :=
  mkModal true (Some (mkImg "" "" "" true)) (Some "") (Some "") (Some "")
    (Some "true") [] true false.

Definition initial_page : Page :=
  mkPage (Some []) true initial_modal "" None 0 0 [].

Definition recA : PictureRecord :=
  mkRecord (Some "image") (Some "u1") None None (Some "A") (Some "2020-01-01") None.

Definition recB : PictureRecord :=
  mkRecord (Some "video") (Some "u2") None (Some "t2") (Some "B") None None.

Definition two_record_response : FetchResult :=
  Responded 200 (BodyParsed (PArray [ERec recA; ERec recB])).

(* ------------------------------------------------------------------ *)
(** * Sanity checks on concrete inputs *)

Example status_404_text : nat_to_dec 404 = "404".
Proof. reflexivity. Qed.

Example two_record_tiles :
  gallery (load_gallery two_record_response initial_page) =
  Some [NTile (mkTile false "u1" "A" "A" "2020-01-01" recA);
        NTile (mkTile true "t2" "B" "B" "" recB)].
Proof. reflexivity. Qed.

Example not_found_message :
  gallery (load_gallery (Responded 404 (BodyParsed (PArray []))) initial_page) =
  Some [NError "Error loading images: Network response was not ok (404)"].
Proof. reflexivity. Qed.

Example fact_draw_half : fact_text spaceFacts (1 # 2) =
  "Saturn could float in water because its average density is less than water.".
Proof. reflexivity. Qed.

(* ------------------------------------------------------------------ *)
(** * Lemmas about the gallery loader *)

Definition tiles_of (recs : list PictureRecord) : list GNode :=
  map (fun it => NTile (build_tile it)) recs.

Lemma for_each_records (recs : list PictureRecord) (g : list GNode) :
  for_each (map ERec recs) g = (inr tt, g ++ tiles_of recs).
Proof.
  revert g; induction recs as [|it recs IH]; intro g; simpl.
  - now rewrite app_nil_r.
  - unfold gbind, gappend; simpl. rewrite IH, <- app_assoc. reflexivity.
Qed.

Lemma try_body_records (st : nat) (recs : list PictureRecord) (g : list GNode) :
  response_ok st = true -> recs <> [] ->
  try_body (Responded st (BodyParsed (PArray (map ERec recs)))) g =
  (inr tt, tiles_of recs).
Proof.
  intros Hok Hne. destruct recs as [|it recs]; [congruence|].
  unfold try_body; rewrite Hok; simpl negb; cbv iota.
  change (map ERec (it :: recs)) with (ERec it :: map ERec recs).
  unfold gbind, gset.
  pose proof (for_each_records (it :: recs) []) as H; simpl in H |- *.
  rewrite H. reflexivity.
Qed.

Lemma load_finish_records (p : Page) (g : list GNode) (st : nat)
  (recs : list PictureRecord) :
  gallery p = Some g -> response_ok st = true -> recs <> [] ->
  load_finish (Responded st (BodyParsed (PArray (map ERec recs)))) p =
  set_gallery (Some (tiles_of recs)) p.
Proof.
  intros Hg Hok Hne. unfold load_finish; rewrite Hg.
  rewrite (try_body_records st recs g Hok Hne). reflexivity.
Qed.

Lemma load_start_present (p : Page) (g : list GNode) :
  gallery p = Some g -> load_start p = set_gallery (Some [NLoading]) p.
Proof. intro Hg. unfold load_start; rewrite Hg; reflexivity. Qed.

Lemma build_tile_play (it : PictureRecord) :
  t_play (build_tile it) = true <-> media_type it = Some "video".
Proof.
  unfold build_tile, is_video; simpl.
  destruct (media_type it) as [s|]; split; intro H; try discriminate.
  - apply String.eqb_eq in H; now subst.
  - injection H as ->; reflexivity.
Qed.

(* ------------------------------------------------------------------ *)
(** * Claims *)

(** C1 (amended). For every response that parses to a non-empty array of
    records (no [null] element), the loader renders one tile per record,
    in array order, and a tile has the play marker iff its record's
    media_type is "video"; on the spec's two-record response the gallery
    holds the two tiles in order, the marker on the second only. *)
Theorem C1_tiles_in_order (p : Page) (g : list GNode) (st : nat)
  (recs : list PictureRecord) :
  gallery p = Some g -> response_ok st = true -> recs <> [] ->
  gallery (load_gallery (Responded st (BodyParsed (PArray (map ERec recs)))) p) =
    Some (map (fun it => NTile (build_tile it)) recs) /\
  (forall it, In it recs -> (t_play (build_tile it) = true <-> media_type it = Some "video")) /\
  exists t1 t2,
    gallery (load_gallery two_record_response initial_page) = Some [NTile t1; NTile t2] /\
    t_item t1 = recA /\ t_item t2 = recB /\ t_play t1 = false /\ t_play t2 = true.
Proof.
  intros Hg Hok Hne. split; [|split].
  - unfold load_gallery. rewrite (load_start_present p g Hg).
    rewrite (load_finish_records (set_gallery (Some [NLoading]) p) [NLoading] st recs
              eq_refl Hok Hne). reflexivity.
  - intros it _. apply build_tile_play.
  - eexists _, _; split; [reflexivity|]. repeat split.
Qed.

Lemma C1_tiles_in_order_witness :
  gallery initial_page = Some [] /\ response_ok 200 = true /\ [recA; recB] <> [] /\
  gallery (load_gallery (Responded 200 (BodyParsed (PArray (map ERec [recA; recB]))))
             initial_page) = Some (map (fun it => NTile (build_tile it)) [recA; recB]).
Proof.
  split; [reflexivity|]. split; [reflexivity|]. split; [discriminate|].
  exact (proj1 (C1_tiles_in_order initial_page [] 200 [recA; recB]
                  eq_refl eq_refl ltac:(discriminate))).
Defined.

(** C1 counterexample. The response [[null]] parses to a non-empty array,
    yet the loader renders no tile: reading [item.media_type] throws and
    the catch replaces the gallery with the error message. *)
Lemma C1_null_element_no_tile :
  gallery (load_gallery (Responded 200 (BodyParsed (PArray [ENull]))) initial_page) =
    Some [NError "Error loading images: Cannot read properties of null (reading 'media_type')"] /\
  ~ (exists t, gallery (load_gallery (Responded 200 (BodyParsed (PArray [ENull]))) initial_page)
               = Some [NTile t]).
Proof.
  split; [reflexivity|]. intros [t Ht]. discriminate Ht.
Qed.

(** C2. A non-2xx status or a rejected fetch leaves the gallery holding
    only an error message that ends with the failure's description, and
    appends a console.error entry; a parsed value that is not an array,
    or an empty array, leaves only "No images found." and logs nothing. *)
Theorem C2_failure_and_empty (p : Page) (g : list GNode) :
  gallery p = Some g ->
  (forall st b, response_ok st = false ->
     let desc := ("Network response was not ok (" ++ nat_to_dec st ++ ")")%string in
     gallery (load_gallery (Responded st b) p) =
       Some [NError ("Error loading images: " ++ desc)%string] /\
     console (load_gallery (Responded st b) p) =
       console p ++ ["Failed to load APOD data: " ++ desc]%string) /\
  (forall msg,
     gallery (load_gallery (Rejected msg) p) =
       Some [NError ("Error loading images: " ++ msg)%string] /\
     console (load_gallery (Rejected msg) p) =
       console p ++ ["Failed to load APOD data: " ++ msg]%string) /\
  (forall st v, response_ok st = true -> (v = PNotArray \/ v = PArray []) ->
     gallery (load_gallery (Responded st (BodyParsed v)) p) = Some [NNoImages] /\
     console (load_gallery (Responded st (BodyParsed v)) p) = console p).
Proof.
  intro Hg. unfold load_gallery; rewrite (load_start_present p g Hg).
  split; [|split].
  - intros st b Hok. unfold load_finish, try_body; simpl. rewrite Hok. split; reflexivity.
  - intro msg. split; reflexivity.
  - intros st v Hok [-> | ->]; unfold load_finish, try_body; simpl; rewrite Hok;
      split; reflexivity.
Qed.

Lemma C2_failure_and_empty_witness :
  gallery initial_page = Some [] /\
  gallery (load_gallery (Responded 404 (BodyParsed (PArray []))) initial_page) =
    Some [NError "Error loading images: Network response was not ok (404)"].
Proof.
  split; [reflexivity|].
  exact (proj1 (proj1 (C2_failure_and_empty initial_page [] eq_refl)
                  404 (BodyParsed (PArray [])) eq_refl)).
Defined.

Lemma is_video_true (it : PictureRecord) :
  media_type it = Some "video" -> is_video it = true.
Proof. unfold is_video; intros ->; reflexivity. Qed.

Lemma is_video_false (it : PictureRecord) :
  media_type it <> Some "video" -> is_video it = false.
Proof.
  unfold is_video; destruct (media_type it) as [s|]; intro H; [|reflexivity].
  apply String.eqb_neq. intros ->; now apply H.
Qed.

Lemma remove_previous_at_most_one (vs : list Iframe) :
  (length vs <= 1)%nat -> remove_previous vs = [].
Proof. destruct vs as [|v [|w vs]]; simpl; intro H; [reflexivity|reflexivity|lia]. Qed.

Definition video_x : PictureRecord :=
  mkRecord (Some "video") (Some "https://embed/x") None None None None None.

Definition hd_record : PictureRecord :=
  mkRecord None (Some "u.jpg") (Some "hd.jpg") None None None None.

(** C3. In the page's modal (the modal and its image present, and at most
    one embed, as in every reachable page), opening a "video" record hides
    the image and leaves exactly one embed, sourced from url, else
    thumbnail_url, else ""; a following close removes the embed, makes the
    image visible again and clears its source. *)
Theorem C3_video_open_then_close (p : Page) (img : Img) (it : PictureRecord) :
  m_present (modal p) = true -> m_image (modal p) = Some img ->
  (length (m_videos (modal p)) <= 1)%nat -> media_type it = Some "video" ->
  m_image (modal (openModal (Some it) p)) =
    Some (mkImg (img_src img) (img_alt img) "none" (img_has_parent img)) /\
  m_videos (modal (openModal (Some it) p)) =
    [mkIframe (or_else (url it) (or_else (thumbnail_url it) "")) (img_has_parent img)] /\
  m_videos (modal (closeModal (openModal (Some it) p))) = [] /\
  m_image (modal (closeModal (openModal (Some it) p))) =
    Some (mkImg "" (img_alt img) "" (img_has_parent img)).
Proof.
  intros Hm Hi Hv Hvid.
  unfold openModal. rewrite Hm. simpl negb. cbv iota.
  rewrite (is_video_true it Hvid), Hi, (remove_previous_at_most_one _ Hv).
  repeat split; reflexivity.
Qed.

Lemma C3_video_open_then_close_witness :
  m_present (modal initial_page) = true /\
  m_image (modal initial_page) = Some (mkImg "" "" "" true) /\
  m_videos (modal (openModal (Some video_x) initial_page)) =
    [mkIframe "https://embed/x" true] /\
  m_videos (modal (closeModal (openModal (Some video_x) initial_page))) = [].
Proof.
  split; [reflexivity|]. split; [reflexivity|].
  destruct (C3_video_open_then_close initial_page (mkImg "" "" "" true) video_x
              eq_refl eq_refl ltac:(simpl; lia) eq_refl) as [_ [H1 [H2 _]]].
  split; [exact H1 | exact H2].
Defined.

(** C4. In the page's modal (the modal and its image present), opening a
    record whose media_type is not "video" sets the image source to hdurl,
    else url, else "", and its alt text to title, else "Space image";
    for {hdurl:"hd.jpg", url:"u.jpg"} the source is "hd.jpg". *)
Theorem C4_image_open_source (p : Page) (img : Img) (it : PictureRecord) :
  m_present (modal p) = true -> m_image (modal p) = Some img ->
  media_type it <> Some "video" ->
  m_image (modal (openModal (Some it) p)) =
    Some (mkImg (or_else (hdurl it) (or_else (url it) ""))
                (or_else (title it) "Space image") "" (img_has_parent img)) /\
  option_map img_src (m_image (modal (openModal (Some hd_record) initial_page))) =
    Some "hd.jpg".
Proof.
  intros Hm Hi Hvid. split; [|reflexivity].
  unfold openModal. rewrite Hm. simpl negb. cbv iota.
  rewrite (is_video_false it Hvid), Hi. reflexivity.
Qed.

Lemma C4_image_open_source_witness :
  m_image (modal (openModal (Some hd_record) initial_page)) =
    Some (mkImg "hd.jpg" "Space image" "" true).
Proof.
  exact (proj1 (C4_image_open_source initial_page (mkImg "" "" "" true) hd_record
                  eq_refl eq_refl ltac:(discriminate))).
Defined.

(** C5. Escape while the modal is visible (aria-hidden "false") makes it
    hidden (aria-hidden "true"); Escape while it is hidden (aria-hidden
    "true", or never set) leaves the page unchanged. *)
Theorem C5_escape_key (p : Page) :
  (m_present (modal p) = true -> m_aria (modal p) = Some "false" ->
   m_aria (modal (on_keydown "Escape" p)) = Some "true") /\
  (m_aria (modal p) = Some "true" \/ m_aria (modal p) = None ->
   on_keydown "Escape" p = p).
Proof.
  split.
  - intros Hm Ha. unfold on_keydown. rewrite Hm, Ha. simpl.
    unfold closeModal. rewrite Hm. reflexivity.
  - intros Ha. unfold on_keydown.
    destruct (m_present (modal p)); [|reflexivity].
    destruct Ha as [Ha|Ha]; rewrite Ha; reflexivity.
Qed.

Lemma C5_escape_key_witness :
  m_aria (modal (on_keydown "Escape" (openModal (Some recA) initial_page))) = Some "true" /\
  on_keydown "Escape" initial_page = initial_page.
Proof.
  split.
  - exact (proj1 (C5_escape_key (openModal (Some recA) initial_page)) eq_refl eq_refl).
  - exact (proj2 (C5_escape_key initial_page) (or_introl eq_refl)).
Defined.

(** C6. Whatever the page before (any earlier invocation, finished or
    pending), a loader invocation whose response is a non-empty array of
    records leaves the gallery holding exactly the new tiles, and changes
    nothing but the gallery: both halves of the handler, and the whole
    handler, are [set_gallery] of the page they run on. *)
Theorem C6_reload_replaces_gallery (p : Page) (g : list GNode) (st : nat)
  (recs : list PictureRecord) :
  gallery p = Some g -> response_ok st = true -> recs <> [] ->
  load_start p = set_gallery (Some [NLoading]) p /\
  load_finish (Responded st (BodyParsed (PArray (map ERec recs)))) p =
    set_gallery (Some (tiles_of recs)) p /\
  load_gallery (Responded st (BodyParsed (PArray (map ERec recs)))) p =
    set_gallery (Some (tiles_of recs)) p.
Proof.
  intros Hg Hok Hne.
  split; [exact (load_start_present p g Hg)|].
  split; [exact (load_finish_records p g st recs Hg Hok Hne)|].
  unfold load_gallery. rewrite (load_start_present p g Hg).
  rewrite (load_finish_records (set_gallery (Some [NLoading]) p) [NLoading] st recs
             eq_refl Hok Hne).
  reflexivity.
Qed.

Lemma C6_reload_replaces_gallery_witness :
  gallery (load_gallery two_record_response initial_page) <> None /\
  load_gallery (Responded 200 (BodyParsed (PArray (map ERec [recB]))))
    (load_gallery two_record_response initial_page) =
  set_gallery (Some (tiles_of [recB])) (load_gallery two_record_response initial_page).
Proof.
  split; [discriminate|].
  exact (proj2 (proj2 (C6_reload_replaces_gallery
                         (load_gallery two_record_response initial_page)
                         (tiles_of [recA; recB]) 200 [recB]
                         eq_refl eq_refl ltac:(discriminate)))).
Defined.

(** C7. [openModal] with no record does nothing; with the modal element
    absent, [openModal], [closeModal] and the Escape and overlay handlers
    do nothing (all are total functions: none throws). *)
Theorem C7_modal_defensive (p : Page) (item : option PictureRecord) (key : string)
  (c : option string) :
  openModal None p = p /\
  (m_present (modal p) = false ->
   openModal item p = p /\ closeModal p = p /\ on_keydown key p = p /\
   on_overlay_click c p = p).
Proof.
  split; [reflexivity|].
  intro Hm. unfold on_overlay_click, on_keydown, openModal, closeModal.
  rewrite Hm. simpl negb. cbv iota.
  split; [destruct item; reflexivity|].
  split; [reflexivity|]. split; [reflexivity|].
  destruct c as [s|]; [destruct (String.eqb s ""); reflexivity | reflexivity].
Qed.

Definition page_without_modal : Page :=
  mkPage (Some []) true (mkModal false None None None None None [] false false)
    "" None 0 0 [].

Lemma C7_modal_defensive_witness :
  m_present (modal page_without_modal) = false /\
  openModal (Some recA) page_without_modal = page_without_modal /\
  closeModal page_without_modal = page_without_modal.
Proof.
  split; [reflexivity|].
  destruct (proj2 (C7_modal_defensive page_without_modal (Some recA) "Escape" None)
              eq_refl) as [H1 [H2 _]].
  split; [exact H1 | exact H2].
Defined.

(* ------------------------------------------------------------------ *)
(** * Lemmas about the fact picker *)

Lemma pick_index_lt (r : Q) (n : nat) :
  (0 <= r)%Q -> (r < 1)%Q -> (0 < n)%nat -> (pick_index r n < n)%nat.
Proof.
  intros H0 H1 Hn. unfold pick_index.
  set (x := (r * inject_Z (Z.of_nat n))%Q).
  assert (Hpos : (0 < inject_Z (Z.of_nat n))%Q).
  { rewrite <- (Zlt_Qlt 0). lia. }
  assert (Hx : (x < inject_Z (Z.of_nat n))%Q).
  { unfold x. apply Qlt_le_trans with (1 * inject_Z (Z.of_nat n))%Q.
    - apply Qmult_lt_compat_r; assumption.
    - rewrite Qmult_1_l. apply Qle_refl. }
  assert (Hlo : (0 <= Qfloor x)%Z).
  { change 0%Z with (Qfloor 0%Q). apply Qfloor_resp_le.
    unfold x. apply Qmult_le_0_compat; [assumption|].
    rewrite <- (Zle_Qle 0). lia. }
  assert (Hhi : (Qfloor x < Z.of_nat n)%Z).
  { rewrite Zlt_Qlt. apply Qle_lt_trans with x; [apply Qfloor_le | exact Hx]. }
  lia.
Qed.

Lemma spaceFacts_nonempty_strings :
  forallb (fun s => negb (String.eqb s "")) spaceFacts = true.
Proof. reflexivity. Qed.

Lemma fact_text_in_list (facts : list string) (r : Q) :
  facts <> [] -> (0 <= r)%Q -> (r < 1)%Q ->
  exists f, nth_error facts (pick_index r (length facts)) = Some f /\
            fact_text facts r = or_else (Some f) "Space is full of surprises!".
Proof.
  intros Hne H0 H1.
  assert (Hlt : (pick_index r (length facts) < length facts)%nat).
  { apply pick_index_lt; auto. destruct facts; [congruence|simpl; lia]. }
  destruct (nth_error facts (pick_index r (length facts))) as [f|] eqn:E.
  - exists f; split; [reflexivity|]. unfold fact_text; now rewrite E.
  - apply nth_error_None in E. lia.
Qed.

Lemma showRandomFact_section (facts : list string) (r : Q) (p : Page) :
  exists sec, fact (showRandomFact facts r p) = Some sec /\
    fs_has_p sec = true /\ fs_text sec = Some (fact_text facts r) /\
    (forall s0, fact p = Some s0 -> fs_id sec = fs_id s0) /\
    (struct_mutations (showRandomFact facts r p) <= S (struct_mutations p))%nat /\
    (forall s0, fact p = Some s0 -> fs_has_p s0 = true ->
       struct_mutations (showRandomFact facts r p) = struct_mutations p).
Proof.
  unfold showRandomFact.
  destruct (fact p) as [s0|] eqn:Ef; [destruct (fs_has_p s0) eqn:Ep|]; simpl;
    (eexists; split; [reflexivity|]); simpl; rewrite ?Ep;
    repeat split; try lia; intros s1 Hs1; try discriminate;
    injection Hs1 as <-; rewrite ?Ep; try reflexivity; try discriminate.
Qed.

Lemma run_facts_reuse (facts : list string) (rs : list Q) :
  forall p sec, fact p = Some sec -> fs_has_p sec = true ->
  struct_mutations (run_facts facts rs p) = struct_mutations p /\
  exists sec', fact (run_facts facts rs p) = Some sec' /\
               fs_id sec' = fs_id sec /\ fs_has_p sec' = true.
Proof.
  induction rs as [|r rs IH]; intros p sec Hf Hp.
  - split; [reflexivity|]. exists sec; auto.
  - change (run_facts facts (r :: rs) p) with (run_facts facts rs (showRandomFact facts r p)).
    destruct (showRandomFact_section facts r p) as [s1 [E1 [P1 [_ [I1 [_ M1]]]]]].
    destruct (IH _ s1 E1 P1) as [M [s2 [E2 [I2 P2]]]].
    split.
    + rewrite M. exact (M1 sec Hf Hp).
    + exists s2. repeat split; auto. rewrite I2. exact (I1 sec Hf).
Qed.

(** C8 (amended). For every non-empty fact list and every draw r in
    [0,1), the index floor(r * length) is in range, so the entry there
    exists; the displayed text is that entry, unless the entry is the
    empty string (falsy), in which case it is "Space is full of
    surprises!"; with the script's ten-fact list the text shown by the
    picker is always one of the ten facts. *)
Theorem C8_fact_index_in_range (facts : list string) (r : Q) (p : Page) :
  facts <> [] -> (0 <= r)%Q -> (r < 1)%Q ->
  (pick_index r (length facts) < length facts)%nat /\
  (exists f, nth_error facts (pick_index r (length facts)) = Some f /\
     (f <> "" -> fact_text facts r = f) /\
     (f = "" -> fact_text facts r = "Space is full of surprises!")) /\
  (exists sec f, fact (showRandomFact spaceFacts r p) = Some sec /\
     fs_text sec = Some f /\ In f spaceFacts).
Proof.
  intros Hne H0 H1. split; [|split].
  - apply pick_index_lt; auto. destruct facts; [congruence|simpl; lia].
  - destruct (fact_text_in_list facts r Hne H0 H1) as [f [E T]].
    exists f; split; [exact E|]. rewrite T; simpl. split.
    + intro Hf. apply String.eqb_neq in Hf. now rewrite Hf.
    + intros ->. reflexivity.
  - destruct (showRandomFact_section spaceFacts r p) as [sec [E [_ [T _]]]].
    exists sec, (fact_text spaceFacts r). split; [exact E|]. split; [exact T|].
    assert (Hs : spaceFacts <> []) by discriminate.
    destruct (fact_text_in_list spaceFacts r Hs H0 H1) as [f [Ef Tf]].
    rewrite Tf. apply nth_error_In in Ef as Hin.
    pose proof spaceFacts_nonempty_strings as Hall.
    rewrite forallb_forall in Hall. specialize (Hall f Hin).
    simpl. destruct (String.eqb f "") eqn:Eq; [discriminate|exact Hin].
Qed.

Lemma C8_fact_index_in_range_witness :
  (pick_index (9 # 10) (length spaceFacts) < length spaceFacts)%nat /\
  fact_text spaceFacts (9 # 10) =
    "The Moon is slowly moving away from Earth at about 3.8 centimeters per year.".
Proof.
  split; [|reflexivity].
  exact (proj1 (C8_fact_index_in_range spaceFacts (9 # 10) initial_page
                  ltac:(discriminate) ltac:(vm_compute; discriminate) eq_refl)).
Defined.

(** C8 counterexample. The one-entry list [""] is non-empty and r = 0 is
    in [0,1): the index 0 is in range, but the displayed text is the
    fallback "Space is full of surprises!", which is not in the list. *)
Lemma C8_empty_entry_not_displayed :
  [""] <> [] /\ pick_index 0 1 = 0%nat /\
  fact_text [""] 0 = "Space is full of surprises!" /\ ~ In (fact_text [""] 0) [""].
Proof.
  split; [discriminate|]. split; [reflexivity|]. split; [reflexivity|].
  simpl. intros [H|[]]. discriminate H.
Qed.

(** C9. The fact region is created at most once: over any number of runs
    of the picker the page structure is mutated at most once; every run
    after the first reuses the region the first run left (same node,
    no further mutation); a run on a page that already has the region
    keeps that node; and every run sets the region's text. *)
Theorem C9_fact_region_idempotent (facts : list string) (p : Page) :
  (forall rs, (struct_mutations (run_facts facts rs p) <= S (struct_mutations p))%nat) /\
  (forall r0 rs, exists sec1 sec2,
     fact (showRandomFact facts r0 p) = Some sec1 /\
     fact (run_facts facts (r0 :: rs) p) = Some sec2 /\ fs_id sec2 = fs_id sec1 /\
     struct_mutations (run_facts facts (r0 :: rs) p) =
       struct_mutations (showRandomFact facts r0 p)) /\
  (forall r sec0, fact p = Some sec0 ->
     exists sec, fact (showRandomFact facts r p) = Some sec /\ fs_id sec = fs_id sec0) /\
  (forall r q, exists sec, fact (showRandomFact facts r q) = Some sec /\
     fs_text sec = Some (fact_text facts r)).
Proof.
  split; [|split; [|split]].
  - intros [|r0 rs]; [simpl; lia|].
    destruct (showRandomFact_section facts r0 p) as [s1 [E1 [P1 [_ [_ [B1 _]]]]]].
    destruct (run_facts_reuse facts rs _ s1 E1 P1) as [M _].
    change (run_facts facts (r0 :: rs) p) with
      (run_facts facts rs (showRandomFact facts r0 p)).
    rewrite M. exact B1.
  - intros r0 rs.
    destruct (showRandomFact_section facts r0 p) as [s1 [E1 [P1 _]]].
    destruct (run_facts_reuse facts rs _ s1 E1 P1) as [M [s2 [E2 [I2 _]]]].
    exists s1, s2. repeat split; assumption.
  - intros r sec0 H0.
    destruct (showRandomFact_section facts r p) as [s1 [E1 [_ [_ [I1 _]]]]].
    exists s1. split; [exact E1 | exact (I1 sec0 H0)].
  - intros r q.
    destruct (showRandomFact_section facts r q) as [s1 [E1 [_ [T1 _]]]].
    exists s1. split; assumption.
Qed.

(* ------------------------------------------------------------------ *)
(** * At most one embed *)

Definition at_most_one_embed (p : Page) : Prop :=
  (length (m_videos (modal p)) <= 1)%nat.

Lemma closeModal_embeds (p : Page) :
  at_most_one_embed p -> at_most_one_embed (closeModal p).
Proof.
  unfold at_most_one_embed, closeModal. intro H.
  destruct (m_present (modal p)); simpl; [|exact H].
  rewrite (remove_previous_at_most_one _ H). simpl; lia.
Qed.

Lemma openModal_embeds (item : option PictureRecord) (p : Page) :
  at_most_one_embed p -> at_most_one_embed (openModal item p).
Proof.
  unfold at_most_one_embed, openModal. intro H.
  destruct item as [it|]; [|exact H].
  destruct (m_present (modal p)); simpl; [|exact H].
  rewrite (remove_previous_at_most_one _ H).
  destruct (is_video it); simpl; lia.
Qed.

Lemma load_finish_modal (r : FetchResult) (p : Page) :
  modal (load_finish r p) = modal p.
Proof.
  unfold load_finish. destruct (gallery p) as [g|]; [|reflexivity].
  destruct (try_body r g) as [[msg|u] g']; reflexivity.
Qed.

Lemma showRandomFact_modal (facts : list string) (r : Q) (p : Page) :
  modal (showRandomFact facts r p) = modal p.
Proof.
  unfold showRandomFact. destruct (fact p) as [s0|]; [destruct (fs_has_p s0)|]; reflexivity.
Qed.

Lemma step_embeds (ev : Event) (p : Page) :
  at_most_one_embed p -> at_most_one_embed (step ev p).
Proof.
  intro H. destruct ev as [it| |c|k| |r|r]; simpl.
  - now apply openModal_embeds.
  - now apply closeModal_embeds.
  - unfold on_overlay_click. destruct c as [s|]; [|exact H].
    destruct (String.eqb s ""); [exact H | now apply closeModal_embeds].
  - unfold on_keydown. destruct (m_present (modal p)); [|exact H]. simpl.
    destruct (String.eqb k "Escape" && _); [now apply closeModal_embeds | exact H].
  - unfold load_start. destruct (gallery p); exact H.
  - unfold at_most_one_embed. now rewrite load_finish_modal.
  - unfold at_most_one_embed. now rewrite showRandomFact_modal.
Qed.

(** C10. Starting from a page with at most one element with id
    "modal-video" (index.html has none), every finite sequence of page
    events (opens, closes, Escape, overlay clicks, gallery loads, fact
    picks) leaves at most one such element: [openModal] removes the
    previous embed before inserting its own, and [closeModal] removes it. *)
Theorem C10_at_most_one_embed (evs : list Event) :
  forall p, (length (m_videos (modal p)) <= 1)%nat ->
  (length (m_videos (modal (run_events evs p))) <= 1)%nat.
Proof.
  induction evs as [|ev evs IH]; intros p H; [exact H|].
  change (run_events (ev :: evs) p) with (run_events evs (step ev p)).
  apply IH. apply step_embeds. exact H.
Qed.

Lemma C10_at_most_one_embed_witness :
  (length (m_videos (modal initial_page)) <= 1)%nat /\
  (length (m_videos (modal (run_events
     [EvOpen (Some video_x); EvOpen (Some recB); EvLoadStart;
      EvLoadFinish two_record_response; EvOpen (Some video_x)] initial_page))) <= 1)%nat.
Proof.
  split; [simpl; lia|].
  apply C10_at_most_one_embed. simpl; lia.
Defined.

(* ================================================================== *)
(** * Further properties of the gallery loader *)

Lemma for_each_null (pre : list PictureRecord) (rest : list Elem) (g : list GNode) :
  for_each (map ERec pre ++ ENull :: rest) g =
  (inl "Cannot read properties of null (reading 'media_type')", g ++ tiles_of pre).
Proof.
  revert g; induction pre as [|it pre IH]; intro g; simpl.
  - now rewrite app_nil_r.
  - unfold gbind, gappend; simpl. rewrite IH, <- app_assoc. reflexivity.
Qed.






(** Each tile's click handler captures its own record: after a load whose
    response is a non-empty array of records, the i-th child of the
    gallery is a tile whose record is the i-th record, and clicking it
    opens the modal with that record. *)
Theorem tiles_capture_records (p : Page) (g : list GNode) (st : nat)
  (recs : list PictureRecord) :
  gallery p = Some g -> response_ok st = true -> recs <> [] ->
  exists g', gallery (load_gallery (Responded st (BodyParsed (PArray (map ERec recs)))) p)
               = Some g' /\ length g' = length recs /\
  forall i it, nth_error recs i = Some it ->
    exists t, nth_error g' i = Some (NTile t) /\ t_item t = it /\
      step (EvOpen (Some (t_item t))) = openModal (Some it).
Proof.
  intros Hg Hok Hne. exists (tiles_of recs). split.
  - unfold load_gallery. rewrite (load_start_present p g Hg).
    rewrite (load_finish_records (set_gallery (Some [NLoading]) p) [NLoading] st recs
               eq_refl Hok Hne). reflexivity.
  - split; [unfold tiles_of; apply length_map|].
    intros i it Hi. exists (build_tile it). unfold tiles_of.
    rewrite nth_error_map, Hi. repeat split.
Qed.

Lemma tiles_capture_records_witness :
  gallery initial_page = Some [] /\
  exists g', gallery (load_gallery two_record_response initial_page) = Some g' /\
             length g' = 2.
Proof.
  split; [reflexivity|].
  destruct (tiles_capture_records initial_page [] 200 [recA; recB] eq_refl eq_refl
              ltac:(discriminate)) as [g' [E [L _]]].
  exists g'. split; [exact E | exact L].
Defined.

(** A [null] anywhere in the array: the tiles built before it are
    discarded, the gallery holds only the error message with the
    TypeError's text, and the failure is logged once. *)
Theorem null_element_error (p : Page) (g : list GNode) (st : nat)
  (pre : list PictureRecord) (rest : list Elem) :
  gallery p = Some g -> response_ok st = true ->
  let r := Responded st (BodyParsed (PArray (map ERec pre ++ ENull :: rest))) in
  let msg := "Cannot read properties of null (reading 'media_type')" in
  gallery (load_finish r p) = Some [NError ("Error loading images: " ++ msg)%string] /\
  console (load_finish r p) = console p ++ ["Failed to load APOD data: " ++ msg]%string.
Proof.
  intros Hg Hok r msg. unfold r, load_finish, try_body. rewrite Hg, Hok. simpl negb.
  cbv iota.
  destruct (map ERec pre ++ ENull :: rest) as [|e l] eqn:E.
  - destruct pre; discriminate.
  - unfold gbind, gset. rewrite <- E, for_each_null. split; reflexivity.
Qed.

Lemma null_element_error_witness :
  gallery (load_finish (Responded 200 (BodyParsed (PArray (map ERec [recA] ++ [ENull]))))
             initial_page) =
  Some [NError "Error loading images: Cannot read properties of null (reading 'media_type')"].
Proof.
  exact (proj1 (null_element_error initial_page [] 200 [recA] [] eq_refl eq_refl)).
Defined.











(** The loader touches only the gallery and the console: the modal, the
    body's scroll lock and the fact region are left as they were, whatever
    the fetch outcome. *)
Theorem loader_frame (r : FetchResult) (p : Page) :
  let q := load_gallery r p in
  modal q = modal p /\ body_overflow q = body_overflow p /\ fact q = fact p /\
  next_node q = next_node p /\ struct_mutations q = struct_mutations p /\
  gallery_attached q = gallery_attached p.
Proof.
  unfold load_gallery, load_start.
  destruct (gallery p) as [g|] eqn:Hg; simpl;
  [| unfold load_finish; rewrite Hg; repeat split].
  unfold load_finish; simpl.
  destruct (try_body r [NLoading]) as [[msg|u] g']; repeat split.
Qed.

(* ================================================================== *)
(** * Further properties of the modal controller *)

(** After an open (from a page with at most one embed), the embeds are
    exactly the current record's: one embed sourced from url, else
    thumbnail_url, else "", for a "video" record, and none otherwise, so
    opening an image record after a video record removes the video. *)
Theorem open_leaves_current_embed (p : Page) (it : PictureRecord) :
  m_present (modal p) = true -> (length (m_videos (modal p)) <= 1)%nat ->
  m_videos (modal (openModal (Some it) p)) =
    if is_video it then
      [mkIframe (or_else (url it) (or_else (thumbnail_url it) ""))
         (match m_image (modal p) with Some i => img_has_parent i | None => false end)]
    else [].
Proof.
  intros Hm Hv. unfold openModal. rewrite Hm. simpl negb. cbv iota.
  rewrite (remove_previous_at_most_one _ Hv).
  destruct (is_video it); reflexivity.
Qed.

Lemma open_leaves_current_embed_witness :
  m_videos (modal (openModal (Some recA) (openModal (Some video_x) initial_page))) = [].
Proof.
  rewrite (open_leaves_current_embed (openModal (Some video_x) initial_page) recA
             eq_refl ltac:(simpl; lia)).
  reflexivity.
Defined.



(** Closing is idempotent on pages with at most one embed, and any close
    of a present modal leaves it hidden (aria-hidden "true"), the scroll
    unlocked, no embed, and the image visible with an empty source. *)
Theorem close_idempotent (p : Page) :
  m_present (modal p) = true -> (length (m_videos (modal p)) <= 1)%nat ->
  closeModal (closeModal p) = closeModal p /\
  m_aria (modal (closeModal p)) = Some "true" /\ body_overflow (closeModal p) = "" /\
  m_videos (modal (closeModal p)) = [] /\
  option_map (fun i => (img_src i, img_display i)) (m_image (modal (closeModal p))) =
    option_map (fun _ => ("", "")) (m_image (modal p)).
Proof.
  intros Hm Hv. unfold closeModal. rewrite Hm. simpl.
  rewrite (remove_previous_at_most_one _ Hv). simpl.
  destruct (m_image (modal p)); repeat split.
Qed.

Lemma close_idempotent_witness :
  closeModal (closeModal (openModal (Some video_x) initial_page)) =
  closeModal (openModal (Some video_x) initial_page).
Proof.
  exact (proj1 (close_idempotent (openModal (Some video_x) initial_page) eq_refl
                  ltac:(simpl; lia))).
Defined.





(** The modal controller's operations touch only the modal and the body's
    scroll lock: the gallery, the fact region and the console are left as
    they were. *)
Theorem modal_ops_frame (p : Page) (item : option PictureRecord) (k : string)
  (c : option string) :
  forall q, q = openModal item p \/ q = closeModal p \/ q = on_keydown k p \/
            q = on_overlay_click c p ->
  gallery q = gallery p /\ fact q = fact p /\ console q = console p /\
  next_node q = next_node p /\ struct_mutations q = struct_mutations p.
Proof.
  assert (Hc : forall q, q = closeModal p ->
            gallery q = gallery p /\ fact q = fact p /\ console q = console p /\
            next_node q = next_node p /\ struct_mutations q = struct_mutations p).
  { intros q ->. unfold closeModal. destruct (m_present (modal p)); repeat split. }
  intros q [-> | [-> | [-> | ->]]].
  - unfold openModal. destruct item as [it|]; [|repeat split].
    destruct (m_present (modal p)); [|repeat split]. simpl.
    destruct (is_video it); repeat split.
  - now apply Hc.
  - unfold on_keydown. destruct (m_present (modal p)); [|repeat split]. simpl.
    destruct (String.eqb k "Escape" && _); [now apply Hc | repeat split].
  - unfold on_overlay_click. destruct c as [s|]; [|repeat split].
    destruct (String.eqb s ""); [repeat split | now apply Hc].
Qed.

Lemma modal_ops_frame_witness :
  gallery (openModal (Some recA) (load_gallery two_record_response initial_page)) =
  Some (tiles_of [recA; recB]).
Proof.
  rewrite (proj1 (modal_ops_frame (load_gallery two_record_response initial_page)
                    (Some recA) "Escape" None _ (or_introl eq_refl))).
  reflexivity.
Defined.

(* ================================================================== *)
(** * Further properties of the fact picker *)

(** A run of the picker on a page without the region creates it as a new
    node, placed before the gallery when the gallery exists and has a
    parent (else at the top of the body), with one page mutation; the
    picker never changes the gallery, the modal, the scroll lock or the
    console. *)
Theorem fact_first_run_creates (facts : list string) (r : Q) (p : Page) :
  let q := showRandomFact facts r p in
  gallery q = gallery p /\ modal q = modal p /\ body_overflow q = body_overflow p /\
  console q = console p /\
  (fact p = None ->
   fact q = Some (mkFact (next_node p) true (Some (fact_text facts r))
                   (match gallery p with Some _ => gallery_attached p | None => false end)) /\
   next_node q = S (next_node p) /\ struct_mutations q = S (struct_mutations p)).
Proof.
  simpl. unfold showRandomFact.
  destruct (fact p) as [s0|]; [destruct (fs_has_p s0)|]; simpl;
    repeat split; intros; try discriminate; repeat split.
Qed.
